(** * lando.blog: the scroll-to-top widget, the theme configuration and
      the metadata of a content page

    Shallow embedding of

    - [src/components/ScrollTop/ScrollTopComp.jsx]: the React function
      component [ScrollTop] with its two closures [toggleVisible] and
      [scrollToTop];
    - [src/theme.config.js]: the module constant [YEAR] and the exported
      configuration object;
    - the content page "Maps in Javascript: Converting Arrays of Objects":
      its front-matter and its [<Head>] block.

    The browser and React are the environment.  The window keeps an event
    listener list and a log of the API calls made on it; React keeps one
    state cell per live instance of the component and calls the component
    function whenever it decides to render. *)

From Stdlib Require Import List String Ascii ZArith QArith Bool Lia Arith.
From Stdlib Require Import DecimalString DecimalZ DecimalPos.
Import ListNotations.

Local Open Scope string_scope.
Local Open Scope list_scope.

(* ------------------------------------------------------------------ *)
(** ** JavaScript numbers and their comparisons *)

Module JS.

(** A number is a finite value, an infinity or NaN.  Finite doubles are
    rationals, so [Q] covers them. *)
Inductive number : Type :=
| Num (q : Q)
| PosInf
| NegInf
| NaN.

(** [a > b]: false as soon as an operand is NaN. *)
Definition gt (a b : number) : bool :=
  match a, b with
  | NaN, _ | _, NaN => false
  | Num x, Num y => negb (Qle_bool x y)
  | PosInf, PosInf => false
  | PosInf, _ => true
  | NegInf, _ => false
  | Num _, PosInf => false
  | Num _, NegInf => true
  end.

(** [a <= b]: false as soon as an operand is NaN. *)
Definition le (a b : number) : bool :=
  match a, b with
  | NaN, _ | _, NaN => false
  | Num x, Num y => Qle_bool x y
  | NegInf, _ => true
  | _, PosInf => true
  | PosInf, _ => false
  | Num _, NegInf => false
  end.

End JS.

(* ------------------------------------------------------------------ *)
(** ** Closures, markup, values and the window *)

(** Every run of [ScrollTop] evaluates two arrow functions and so creates
    two new function objects.  [instance] is the component instance whose
    [setVisible] the closure captured, [render] the run that created it. *)
Inductive closure : Type :=
| ToggleVisibleOf (instance render : nat)
| ScrollToTopOf (instance render : nat).

Definition closure_eqb (c d : closure) : bool :=
  match c, d with
  | ToggleVisibleOf i k, ToggleVisibleOf j l => Nat.eqb i j && Nat.eqb k l
  | ScrollToTopOf i k, ScrollToTopOf j l => Nat.eqb i j && Nat.eqb k l
  | _, _ => false
  end.

(** A property of a JSX element. *)
Inductive prop : Type :=
| PString (s : string)
| PBool (b : bool)
| PHandler (c : closure)
| PStyle (decls : list (string * string)).

(** JSX children: text, a number in braces, or an element. *)
#[warnings="-register-all"]
Inductive node : Type :=
| Text (s : string)
| Number (z : Z)
| Elem (tag : string) (props : list (string * prop)) (children : list node).

(** The values that occur: what the functions return and what the
    configuration object holds. *)
#[warnings="-register-all"]
Inductive value : Type :=
| Undefined
| Boolean (b : bool)
| Str (s : string)
| Element (n : node)
| Array (items : list value)
| Object (fields : list (string * value)).

(** How a call ends: normally with a value, or by throwing one. *)
Inductive completion : Type :=
| Normal (v : value)
| Throw (v : value).

Inductive ScrollBehavior : Type := Auto | Smooth | Instant.

Record ScrollToOptions : Type := {
  top : Q;
  behavior : ScrollBehavior
}.

(** The calls a script can make on [window] that matter here. *)
Inductive dom_call : Type :=
| AddEventListener (type : string) (cb : closure)
| RemoveEventListener (type : string) (cb : closure)
| ScrollTo (opts : ScrollToOptions).

(** The page as the component sees it. *)
Record world : Type := World {
  scrollTop : Q;                        (* document.documentElement.scrollTop *)
  listeners : list (string * closure);  (* event listener list of window *)
  calls : list dom_call;                (* calls made on window, oldest first *)
  hook : option bool;                   (* state cell of the live instance *)
  inst : nat;                           (* instances created so far *)
  renders : nat;                        (* runs of ScrollTop so far *)
  view : option node                    (* output of the last render *)
}.

Definition with_scrollTop (q : Q) (w : world) : world :=
  World q (listeners w) (calls w) (hook w) (inst w) (renders w) (view w).

Definition with_listeners (l : list (string * closure)) (w : world) : world :=
  World (scrollTop w) l (calls w) (hook w) (inst w) (renders w) (view w).

Definition with_calls (l : list dom_call) (w : world) : world :=
  World (scrollTop w) (listeners w) l (hook w) (inst w) (renders w) (view w).

Definition with_hook (h : option bool) (w : world) : world :=
  World (scrollTop w) (listeners w) (calls w) h (inst w) (renders w) (view w).

Definition with_inst (i : nat) (w : world) : world :=
  World (scrollTop w) (listeners w) (calls w) (hook w) i (renders w) (view w).

Definition with_renders (n : nat) (w : world) : world :=
  World (scrollTop w) (listeners w) (calls w) (hook w) (inst w) n (view w).

Definition with_view (v : option node) (w : world) : world :=
  World (scrollTop w) (listeners w) (calls w) (hook w) (inst w) (renders w) v.

(** Own property [key] of an object literal, first match. *)
Fixpoint lookup {A : Type} (key : string) (l : list (string * A))
    : option A :=
  match l with
  | [] => None
  | (k, v) :: l' => if String.eqb key k then Some v else lookup key l'
  end.

Definition same_listener (type : string) (cb : closure)
    (l : string * closure) : bool :=
  String.eqb type (fst l) && closure_eqb cb (snd l).

Module Window.

(** [window.addEventListener(type, cb)]: the listener is appended unless
    the list already holds the same type with the same function object. *)
Definition addEventListener (type : string) (cb : closure) (w : world)
    : world :=
  let w := with_calls (calls w ++ [AddEventListener type cb]) w in
  if existsb (same_listener type cb) (listeners w) then w
  else with_listeners (listeners w ++ [(type, cb)]) w.

(** [window.removeEventListener(type, cb)]. *)
Definition removeEventListener (type : string) (cb : closure) (w : world)
    : world :=
  let w := with_calls (calls w ++ [RemoveEventListener type cb]) w in
  with_listeners
    (filter (fun l => negb (same_listener type cb l)) (listeners w)) w.

(** [window.scrollTo(options)]: the request is handed to the browser,
    which scrolls on its own afterwards. *)
Definition scrollTo (opts : ScrollToOptions) (w : world) : world :=
  with_calls (calls w ++ [ScrollTo opts]) w.

End Window.

(* ------------------------------------------------------------------ *)
(** ** React's state hook *)

Module React.

(** [useState(init)]: on the first render of an instance the cell is
    created with [init]; later renders read the cell.  The result is the
    current value and the instance the setter is bound to. *)
Definition useState (init : bool) (w : world) : bool * nat * world :=
  match hook w with
  | Some v => (v, inst w, w)
  | None =>
      let i := S (inst w) in
      (init, i, with_inst i (with_hook (Some init) w))
  end.

(** The setter of instance [i].  An update for an instance that is no
    longer mounted is dropped. *)
Definition setState (i : nat) (v : bool) (w : world) : world :=
  match hook w with
  | Some _ => if Nat.eqb i (inst w) then with_hook (Some v) w else w
  | None => w
  end.

End React.

(* ------------------------------------------------------------------ *)
(** ** src/components/ScrollTop/ScrollTopComp.jsx *)

Section ScrollTopComp.

(** [styles.scrollTop], the class name exported by the CSS module. *)
Variable styles_scrollTop : string.

Definition setVisible := React.setState.

(** Lines 10-17. *)
Definition toggleVisible (i : nat) (w : world) : completion * world :=
  let scrolled := JS.Num (scrollTop w) in
  if JS.gt scrolled (JS.Num 300) then
    (Normal Undefined, setVisible i true w)
  else if JS.le scrolled (JS.Num 300) then
    (Normal Undefined, setVisible i false w)
  else
    (Normal Undefined, w).

(** Lines 19-24. *)
Definition scrollToTop (w : world) : completion * world :=
  (Normal Undefined,
   Window.scrollTo {| top := 0; behavior := Smooth |} w).

(** Lines 7-37: the component function.  [k] numbers this run and with it
    the two function objects the run creates. *)
Definition ScrollTop (w : world) : node * world :=
  let '(visible, i, w) := React.useState false w in
  let k := renders w in
  let w := with_renders (S k) w in
  let w := Window.addEventListener "scroll" (ToggleVisibleOf i k) w in
  (Elem "div"
     [("className", PString styles_scrollTop);
      ("onClick", PHandler (ScrollToTopOf i k));
      ("style",
       PStyle [("display", if visible then "inline" else "none")])]
     [Elem "BsFillCaretUpFill" [("size", PString "0.4em")] []],
   w).

(** Calling a function object. *)
Definition call (c : closure) (w : world) : completion * world :=
  match c with
  | ToggleVisibleOf i _ => toggleVisible i w
  | ScrollToTopOf _ _ => scrollToTop w
  end.

(** *** The environment: what the browser and React do to the component *)

Inductive event : Type :=
| EvRender                    (* React renders: mount or re-render *)
| EvUnmount                   (* React removes the instance *)
| EvScroll (offset : Q)       (* the document has scrolled to [offset] *)
| EvClick.                    (* the user clicks the widget *)

(** The value of [style.display] of an element. *)
Definition display (n : node) : option string :=
  match n with
  | Elem _ props _ =>
      match lookup "style" props with
      | Some (PStyle decls) => lookup "display" decls
      | _ => None
      end
  | _ => None
  end.

Definition onClick (n : node) : option closure :=
  match n with
  | Elem _ props _ =>
      match lookup "onClick" props with
      | Some (PHandler c) => Some c
      | _ => None
      end
  | _ => None
  end.

(** An element with [display: none] has no box and receives no click. *)
Definition clickable (w : world) : bool :=
  match view w with
  | Some n =>
      match display n with
      | Some d => negb (String.eqb d "none")
      | None => true
      end
  | None => false
  end.

(** Dispatching an event of [type] on window: the listeners of that type
    run in the order they were added; what a listener throws is reported
    and the next one runs. *)
Definition dispatch (type : string) (w : world) : world :=
  fold_left
    (fun w l => if String.eqb type (fst l) then snd (call (snd l) w) else w)
    (listeners w) w.

Definition step (e : event) (w : world) : world :=
  match e with
  | EvRender =>
      let '(n, w) := ScrollTop w in with_view (Some n) w
  | EvUnmount =>
      with_view None (with_hook None w)
  | EvScroll offset =>
      dispatch "scroll" (with_scrollTop offset w)
  | EvClick =>
      if clickable w then
        match view w with
        | Some n =>
            match onClick n with
            | Some c => snd (call c w)
            | None => w
            end
        | None => w
        end
      else w
  end.

Definition run (evs : list event) (w : world) : world :=
  fold_left (fun w e => step e w) evs w.

(** The page before the component is mounted, scrolled to [offset]. *)
Definition initial (offset : Q) : world :=
  World offset [] [] None 0 0 None.

End ScrollTopComp.

(** *** Observations on a world and on a trace *)

(** The flag the component reads as [visible]. *)
Definition visible (w : world) : option bool := hook w.

Definition mounted (w : world) : bool :=
  match hook w with Some _ => true | None => false end.

Definition is_remove (c : dom_call) : bool :=
  match c with RemoveEventListener _ _ => true | _ => false end.

(** The listeners that the [addEventListener] calls of a log passed in. *)
Definition added (cs : list dom_call) : list (string * closure) :=
  flat_map
    (fun c => match c with AddEventListener t cb => [(t, cb)] | _ => [] end)
    cs.

Definition scroll_requests (cs : list dom_call) : list ScrollToOptions :=
  flat_map (fun c => match c with ScrollTo o => [o] | _ => [] end) cs.

(** A scroll listener that is a [toggleVisible] closure. *)
Definition toggle_listener (l : string * closure) : bool :=
  String.eqb "scroll" (fst l) &&
  match snd l with ToggleVisibleOf _ _ => true | _ => false end.

(** The closure of the listener captured the setter of instance [i]. *)
Definition bound_to (i : nat) (l : string * closure) : bool :=
  match snd l with
  | ToggleVisibleOf j _ => Nat.eqb j i
  | ScrollToTopOf _ _ => false
  end.

Definition render_of (l : string * closure) : nat :=
  match snd l with ToggleVisibleOf _ k | ScrollToTopOf _ k => k end.

Definition instance_of (l : string * closure) : nat :=
  match snd l with ToggleVisibleOf i _ | ScrollToTopOf i _ => i end.

Definition is_render (e : event) : bool :=
  match e with EvRender => true | _ => false end.

Definition is_scroll (e : event) : bool :=
  match e with EvScroll _ => true | _ => false end.

(** What holds of every world the component can be in. *)
Record inv (w : world) : Prop := {
  inv_toggle : forallb toggle_listener (listeners w) = true;
  inv_render : Forall (fun l => render_of l < renders w)%nat (listeners w);
  inv_instance : Forall (fun l => instance_of l <= inst w)%nat (listeners w);
  inv_length : List.length (listeners w) = renders w;
  inv_ids : map render_of (listeners w) = seq 0 (renders w);
  inv_added : added (calls w) = listeners w;
  inv_no_remove : forallb (fun c => negb (is_remove c)) (calls w) = true;
  inv_bound : mounted w = true ->
              existsb (bound_to (inst w)) (listeners w) = true;
  inv_view : forall n, view w = Some n ->
             exists i k, onClick n = Some (ScrollToTopOf i k)
}.

(** The threshold test of [toggleVisible] on a finite offset. *)
Definition above (q : Q) : bool := JS.gt (JS.Num q) (JS.Num 300).

(** The flag once the listeners [ls] have run on [w]. *)
Definition flag_after (ls : list (string * closure)) (w : world)
    : option bool :=
  match hook w with
  | Some old =>
      if existsb (bound_to (inst w)) ls then Some (above (scrollTop w))
      else Some old
  | None => None
  end.

(* ------------------------------------------------------------------ *)
(** ** Text of a markup tree *)

(** [String(z)] for an integer. *)
Definition string_of_Z (z : Z) : string :=
  NilZero.string_of_int (Z.to_int z).

(** The text a tree shows: its text children in document order, a number
    child printed in decimal. *)
Fixpoint text_content (n : node) : string :=
  match n with
  | Text s => s
  | Number z => string_of_Z z
  | Elem _ _ children => String.concat "" (map text_content children)
  end.

(** The first element with tag [t], in document order. *)
Fixpoint find_tag (t : string) (n : node) : option node :=
  match n with
  | Elem t' _ children =>
      if String.eqb t t' then Some n
      else
        (fix first (l : list node) : option node :=
           match l with
           | [] => None
           | c :: l' =>
               match find_tag t c with
               | Some r => Some r
               | None => first l'
               end
           end) children
  | _ => None
  end.

(** [is_substring s t]: [s] occurs in [t] as a run of consecutive
    characters. *)
Fixpoint is_substring (s t : string) : bool :=
  String.prefix s t ||
  match t with
  | EmptyString => false
  | String _ t' => is_substring s t'
  end.

(* ------------------------------------------------------------------ *)
(** ** src/theme.config.js *)

Module ThemeConfig.

(** What [new Date()] gives: the system clock in local time, as the
    getters of the Date report it. *)
Record Date : Type := {
  getFullYear : Z;
  getMonth : Z;
  getDate : Z
}.

(** [process.env.NAME]: the string the variable is set to, or undefined. *)
Definition process_env (env : list (string * string)) (name : string)
    : value :=
  match lookup name env with
  | Some s => Str s
  | None => Undefined
  end.

Section Module_evaluation.

(** The system clock and the environment when the module is evaluated. *)
Variable now : Date.
Variable env : list (string * string).

(** Line 1. *)
Definition YEAR : Z := getFullYear now.

(** Lines 8-23. *)
Definition footer : node :=
  Elem "footer" []
    [Elem "small" []
       [Elem "time" [] [Number YEAR];
        Text " © lando.";
        Elem "a" [("href", PString "/feed.xml")] [Text "RSS"]];
     Elem "style" [("jsx", PBool true)]
       [Text "
        footer {
          margin-top: 8rem;
        }
        a {
          float: right;
        }
      "]].

(** Lines 24-25. *)
Definition navs : list value := [].

(** Lines 3-26: the default export. *)
Definition default : value :=
  Object
    [("cusdis",
      Object [("appId", process_env env "NEXT_PUBLIC_CUSDIS_APP_ID")]);
     ("darkMode", Boolean true);
     ("footer", Element footer);
     ("navs", Array navs)].

End Module_evaluation.

(** Property access [o.key]. *)
Definition get (o : value) (key : string) : option value :=
  match o with
  | Object fields => lookup key fields
  | _ => None
  end.

(** [Object.keys(o)]. *)
Definition keys (o : value) : list string :=
  match o with
  | Object fields => map fst fields
  | _ => []
  end.

(** The footer on the page when the layout renders, with the clock at
    [rendered], the configuration of a module that was evaluated with the
    clock at [loaded]: the element stored under [footer].  Its children
    are the values of the module evaluation; rendering them reads no
    clock. *)
Definition rendered_footer (loaded rendered : Date)
    (env : list (string * string)) : option node :=
  match get (default loaded env) "footer" with
  | Some (Element n) => Some n
  | _ => None
  end.

(** The rendered footer contains the year of the clock at the time it is
    rendered, whenever the module was evaluated. *)
Definition shows_year_at_render : Prop :=
  forall loaded rendered env,
    exists n,
      rendered_footer loaded rendered env = Some n /\
      is_substring (string_of_Z (getFullYear rendered)) (text_content n)
        = true.

End ThemeConfig.

(* ------------------------------------------------------------------ *)
(** ** The content page: front-matter and head *)

Module Page.

Record page : Type := {
  frontmatter : list (string * string);
  head : node
}.

(** Lines 1-7 and 13-21 of the page. *)
Definition javascript_convert_array_of_objects_to_map : page := {|
  frontmatter :=
    [("title", "📍 Maps in Javascript: Converting Arrays of Objects");
     ("date", "2022-06-26");
     ("description",
      "Using Maps in Javascript to make object data lookup more efficient");
     ("tag", "web development, javascript, map, array, object");
     ("author", "lando")];
  head :=
    Elem "Head" []
      [Elem "meta"
         [("name", PString "title");
          ("content",
           PString "Maps in Javascript: Converting Arrays of Objects")] [];
       Elem "meta"
         [("name", PString "description");
          ("content",
           PString
             "Using Maps in Javascript to make object data lookup more efficient")]
         [];
       Elem "meta"
         [("name", PString "keywords");
          ("content",
           PString "web development, javascript, map, array, object")] [];
       Elem "meta"
         [("property", PString "og:description");
          ("content",
           PString
             "Using Maps in Javascript to make object data lookup more efficient")]
         [];
       Elem "meta"
         [("property", PString "og:title");
          ("content",
           PString "Maps in Javascript: Converting Arrays of Objects")] [];
       Elem "link"
         [("rel", PString "canonical");
          ("href",
           PString
             "https://www.lando.blog/posts/javascript-convert-array-of-objects-to-map")]
         [];
       Elem "title" []
         [Text "Maps in Javascript: Converting Arrays of Objects - lando.blog"]]
|}.

(** The content pages at hand. *)
Definition content_pages : list page :=
  [javascript_convert_array_of_objects_to_map].

(** The strings a property carries. *)
Definition prop_strings (p : prop) : list string :=
  match p with
  | PString s => [s]
  | PStyle decls => map snd decls
  | _ => []
  end.

(** Every string of a rendered tree: the values of its attributes and
    its text, in document order. *)
Fixpoint strings_of (n : node) : list string :=
  match n with
  | Text s => [s]
  | Number z => [string_of_Z z]
  | Elem _ props children =>
      flat_map (fun kv => prop_strings (snd kv)) props
      ++ flat_map strings_of children
  end.

(** [v] stands somewhere in the head, character for character. *)
Definition appears_verbatim (v : string) (h : node) : bool :=
  existsb (is_substring v) (strings_of h).

Definition attr (key : string) (n : node) : option string :=
  match n with
  | Elem _ props _ =>
      match lookup key props with
      | Some (PString s) => Some s
      | _ => None
      end
  | _ => None
  end.

Definition is_meta (name : string) (n : node) : bool :=
  match n with
  | Elem tag _ _ =>
      String.eqb tag "meta" &&
      match attr "name" n with
      | Some s => String.eqb s name
      | None => false
      end
  | _ => false
  end.

(** The [content] of the head's [<meta name=...>]. *)
Definition meta_content (name : string) (h : node) : option string :=
  match h with
  | Elem _ _ children =>
      match find (is_meta name) children with
      | Some m => attr "content" m
      | None => None
      end
  | _ => None
  end.

(** The declared metadata: each front-matter field with the meta tag that
    carries it. *)
Definition metadata_fields : list (string * string) :=
  [("title", "title"); ("description", "description"); ("tag", "keywords")].

(** Every declared metadata field of [p] stands verbatim in its head. *)
Definition metadata_verbatim (p : page) : Prop :=
  forall field name v,
    In (field, name) metadata_fields ->
    lookup field (frontmatter p) = Some v ->
    appears_verbatim v (head p) = true.

End Page.

(* ------------------------------------------------------------------ *)
(** ** The content page: the code of the post

    The post shows four ways to find the age of each user of
    [userIdArray] in [userAgeArray], the rows of a query.  The rows are
    objects [{id, age}] with integer ids, as in the data of the post; such
    an id turns into its decimal numeral when it is used as a property
    key, as long as it is below 10^21 in absolute value. *)

Module Post.

(** A row: [{id: 1, age: 10}]. *)
Record user : Type := { id : Z; age : Z }.

(** An argument handed to [console.log]. *)
Inductive printed : Type :=
| PNumber (z : Z)
| PUser (u : user)
| PUndefined.

(** The console: the argument lists of the [console.log] calls, oldest
    first. *)
Definition console : Type := list (list printed).

Inductive error : Type := TypeError.

(** [a[index]]: undefined beyond the end of the array. *)
Definition at_index {A : Type} (a : list A) (index : nat) : option A :=
  nth_error a index.

Definition print_number (x : option Z) : printed :=
  match x with Some z => PNumber z | None => PUndefined end.

Definition print_user (x : option user) : printed :=
  match x with Some u => PUser u | None => PUndefined end.

(** [x.age]: reading a property of undefined throws a TypeError. *)
Definition age_of (x : option user) : error + Z :=
  match x with Some u => inr (age u) | None => inl TypeError end.

(** [array.forEach(callback)] from [index] on: the callback runs on each
    element with its index, in order; what it throws ends the loop and
    leaves the console as it was before that call. *)
Fixpoint forEach_from {A : Type}
    (callback : A -> nat -> console -> error + console)
    (a : list A) (index : nat) (out : console) : console * option error :=
  match a with
  | [] => (out, None)
  | x :: a' =>
      match callback x index out with
      | inr out' => forEach_from callback a' (S index) out'
      | inl e => (out, Some e)
      end
  end.

Definition forEach {A : Type}
    (callback : A -> nat -> console -> error + console)
    (a : list A) (out : console) : console * option error :=
  forEach_from callback a 0 out.

Section Lookups.

Variable userIdArray : list Z.
Variable userAgeArray : list user.

(** Lines 60-62, "assuming in order". *)
Definition ordered_lookup (out : console) : console * option error :=
  forEach
    (fun _ index out =>
       inr (out ++ [[print_number (at_index userIdArray index);
                     print_user (at_index userAgeArray index)]]))
    userIdArray out.

(** Lines 68-71, "costly". *)
Definition filter_lookup (out : console) : console * option error :=
  forEach
    (fun id0 index out =>
       let ageData := filter (fun data => Z.eqb (id data) id0) userAgeArray in
       match age_of (at_index ageData 0) with
       | inr a =>
           inr (out ++ [[print_number (at_index userIdArray index); PNumber a]])
       | inl e => inl e
       end)
    userIdArray out.

(** A plain object with the properties that were assigned to it, each
    under its key, a string. *)
Definition object : Type := list (string * user).

(** [o[key] = v]: an own property is overwritten where it is, a new one
    is added. *)
Fixpoint obj_set (key : string) (v : user) (o : object) : object :=
  match o with
  | [] => [(key, v)]
  | (k, x) :: o' =>
      if String.eqb key k then (k, v) :: o' else (k, x) :: obj_set key v o'
  end.

(** Lines 80-83: [a[c.id] = c] turns the id into its decimal string. *)
Definition userAgeObj : object :=
  fold_left (fun a c => obj_set (string_of_Z (id c)) c a) userAgeArray [].

(** Lines 89-91. *)
Definition object_lookup (out : console) : console * option error :=
  forEach
    (fun id0 _ out =>
       match age_of (lookup (string_of_Z id0) userAgeObj) with
       | inr a => inr (out ++ [[PNumber id0; PNumber a]])
       | inl e => inl e
       end)
    userIdArray out.

(** A [Map] with number keys, in insertion order. *)
Definition Map : Type := list (Z * user).

Fixpoint Map_set (key : Z) (v : user) (m : Map) : Map :=
  match m with
  | [] => [(key, v)]
  | (k, x) :: m' =>
      if Z.eqb key k then (k, v) :: m' else (k, x) :: Map_set key v m'
  end.

Fixpoint Map_get (key : Z) (m : Map) : option user :=
  match m with
  | [] => None
  | (k, x) :: m' => if Z.eqb key k then Some x else Map_get key m'
  end.

(** Lines 96-99. *)
Definition userAgeMap : Map :=
  fold_left (fun a c => Map_set (id c) c a) userAgeArray [].

(** Lines 102-104. *)
Definition map_lookup (out : console) : console * option error :=
  forEach
    (fun id0 _ out =>
       match age_of (Map_get id0 userAgeMap) with
       | inr a => inr (out ++ [[PNumber id0; PNumber a]])
       | inl e => inl e
       end)
    userIdArray out.

(** The property key of [userIdArray[i]]: [String(undefined)] beyond the
    end. *)
Definition key_at (i : nat) : string :=
  match at_index userIdArray i with
  | Some z => string_of_Z z
  | None => "undefined"
  end.

(** Lines 158-160: the loop from [i] with [todo] rounds to go. *)
Fixpoint for_from (todo i : nat) : option error :=
  match todo with
  | O => None
  | S todo' =>
      match age_of (lookup (key_at i) userAgeObj) with
      | inr _ => for_from todo' (S i)
      | inl e => Some e
      end
  end.

Definition for_loop : option error :=
  for_from (List.length userIdArray) 0.

End Lookups.


(** The row [lookup] finds for id [k]: the predicate of the filter. *)
Definition has_id (k : Z) (u : user) : bool := Z.eqb (id u) k.

(** The callback of a lookup loop, given how a row is found. *)
Definition logging (get : Z -> option user) (id0 : Z) (out : console)
    : error + console :=
  match age_of (get id0) with
  | inr a => inr (out ++ [[PNumber id0; PNumber a]])
  | inl e => inl e
  end.

(** What a lookup loop prints for an id whose row is [u]. *)
Definition entry (k : Z) (u : user) : list printed :=
  [PNumber k; PNumber (age u)].

(** The entries for the ids [ids], a row being found by [get]. *)
Definition entries (get : Z -> option user) (ids : list Z) : console :=
  flat_map
    (fun k => match get k with Some u => [entry k u] | None => [] end) ids.

End Post.

(** *** Further observations on the widget *)

Definition is_click (e : event) : bool :=
  match e with EvClick => true | _ => false end.

(** The one request [scrollToTop] makes. *)
Definition to_top : ScrollToOptions := {| top := 0; behavior := Smooth |}.

(* ------------------------------------------------------------------ *)
(** * Properties of the scroll-to-top widget *)

Section ScrollTop_properties.

Variable cls : string.


Lemma above_true (q : Q) : above q = true <-> 300 < q.
Proof.
  unfold above, JS.gt. rewrite negb_true_iff. split.
  - intros H. apply Qnot_le_lt. intros L.
    apply Qle_bool_iff in L. congruence.
  - intros H. destruct (Qle_bool q 300) eqn:E; [|reflexivity].
    apply Qle_bool_iff in E. exfalso. exact (Qlt_not_le _ _ H E).
Qed.

Lemma above_false (q : Q) : above q = false <-> q <= 300.
Proof.
  unfold above, JS.gt. rewrite negb_false_iff. apply Qle_bool_iff.
Qed.

(** On a finite offset one of the two tests of [toggleVisible] holds, so
    its last, empty branch is never taken. *)
Lemma finite_gt_or_le (q : Q) :
  JS.gt (JS.Num q) (JS.Num 300) = false ->
  JS.le (JS.Num q) (JS.Num 300) = true.
Proof. unfold JS.gt, JS.le. apply negb_false_iff. Qed.

Lemma setState_hook (i : nat) (v : bool) (w : world) :
  React.setState i v w =
  with_hook
    (match hook w with
     | Some old => if Nat.eqb i (inst w) then Some v else Some old
     | None => None
     end) w.
Proof.
  destruct w as [q ls cs h j r n]; unfold React.setState; simpl.
  destruct h; [destruct (Nat.eqb i j)|]; reflexivity.
Qed.

Lemma toggleVisible_setVisible (i : nat) (w : world) :
  toggleVisible i w =
  (Normal Undefined, setVisible i (above (scrollTop w)) w).
Proof.
  unfold toggleVisible, above.
  destruct (JS.gt (JS.Num (scrollTop w)) (JS.Num 300)) eqn:G;
    [reflexivity|].
  now rewrite (finite_gt_or_le _ G).
Qed.

Lemma dispatch_toggles (ls : list (string * closure)) :
  forallb toggle_listener ls = true ->
  forall w,
    fold_left
      (fun w l =>
         if String.eqb "scroll" (fst l) then snd (call (snd l) w) else w)
      ls w
    = with_hook (flag_after ls w) w.
Proof.
  induction ls as [|[t c] ls IH]; intros T w.
  - destruct w as [q l cs h j r n]. unfold flag_after; simpl.
    now destruct h.
  - simpl in T. apply andb_true_iff in T as [Ta T].
    unfold toggle_listener in Ta; simpl in Ta.
    apply andb_true_iff in Ta as [Tt Tc].
    destruct c as [i k|i k]; [|discriminate].
    simpl. rewrite Tt. simpl.
    rewrite toggleVisible_setVisible; simpl.
    unfold setVisible. rewrite setState_hook, (IH T).
    destruct w as [q l cs h j r n]. unfold flag_after, bound_to; simpl.
    destruct h as [old|]; [|reflexivity].
    destruct (Nat.eqb i j); simpl; [|reflexivity].
    now destruct (existsb _ ls).
Qed.

Lemma scroll_step (offset : Q) (w : world) :
  forallb toggle_listener (listeners w) = true ->
  step cls (EvScroll offset) w =
  with_hook (flag_after (listeners w) (with_scrollTop offset w))
    (with_scrollTop offset w).
Proof.
  intros T. unfold step, dispatch.
  now rewrite (dispatch_toggles (listeners (with_scrollTop offset w)) T).
Qed.


(** *** The invariant *)

Lemma fresh_closure (i k : nat) (ls : list (string * closure)) :
  Forall (fun l => render_of l < k)%nat ls ->
  existsb (same_listener "scroll" (ToggleVisibleOf i k)) ls = false.
Proof.
  induction 1 as [|[t c] ls H _ IH]; [reflexivity|].
  simpl. rewrite IH, orb_false_r.
  unfold same_listener; simpl. apply andb_false_iff; right.
  destruct c as [j m|j m]; [|reflexivity]; simpl in *.
  apply andb_false_iff; right. apply Nat.eqb_neq.
  unfold render_of in H; simpl in H. lia.
Qed.

Lemma inv_initial (offset : Q) : inv (initial offset).
Proof.
  split; simpl; auto; try discriminate.
Qed.

Lemma render_listeners (w : world) :
  inv w ->
  exists i,
    (i = if mounted w then inst w else S (inst w)) /\
    listeners (step cls EvRender w) =
      listeners w ++ [("scroll", ToggleVisibleOf i (renders w))] /\
    calls (step cls EvRender w) =
      calls w ++ [AddEventListener "scroll" (ToggleVisibleOf i (renders w))] /\
    inst (step cls EvRender w) = i /\
    renders (step cls EvRender w) = S (renders w) /\
    hook (step cls EvRender w) =
      Some (match hook w with Some v => v | None => false end) /\
    scrollTop (step cls EvRender w) = scrollTop w /\
    exists n, view (step cls EvRender w) = Some n /\
              onClick n = Some (ScrollToTopOf i (renders w)) /\
              display n =
                Some (match hook w with
                      | Some true => "inline"
                      | _ => "none"
                      end).
Proof.
  intros I. pose proof (inv_render w I) as F.
  destruct w as [q ls cs h j r n]; simpl in *.
  unfold step, ScrollTop, React.useState, Window.addEventListener, mounted;
    simpl.
  destruct h as [v|]; simpl; rewrite (fresh_closure _ _ _ F); simpl.
  - exists j. repeat split. eexists. split; [reflexivity|].
    split; [reflexivity|]. now destruct v.
  - exists (S j). repeat split. eexists. split; [reflexivity|].
    split; reflexivity.
Qed.

Lemma click_step (w : world) :
  inv w ->
  step cls EvClick w =
  if clickable w
  then Window.scrollTo {| top := 0; behavior := Smooth |} w
  else w.
Proof.
  intros I. unfold step. destruct (clickable w) eqn:C; [|reflexivity].
  unfold clickable in C. destruct (view w) as [n|] eqn:V; [|discriminate].
  destruct (inv_view w I n V) as (i & k & ->). reflexivity.
Qed.

Lemma step_inv (e : event) (w : world) : inv w -> inv (step cls e w).
Proof.
  intros I. destruct e as [| |offset|].
  - destruct (render_listeners w I)
      as (i & Hi & L & C & J & R & H & _ & n & V & O & _).
    split; rewrite ?L, ?C, ?J, ?R.
    + rewrite forallb_app, (inv_toggle w I). reflexivity.
    + apply Forall_app; split.
      * eapply Forall_impl; [|apply (inv_render w I)]. simpl; lia.
      * repeat constructor.
    + apply Forall_app; split.
      * eapply Forall_impl; [|apply (inv_instance w I)].
        simpl; intros. destruct (mounted w); lia.
      * repeat constructor.
    + rewrite length_app, (inv_length w I). simpl; lia.
    + rewrite map_app, seq_S, (inv_ids w I). reflexivity.
    + unfold added. rewrite flat_map_app. simpl.
      fold (added (calls w)). now rewrite (inv_added w I).
    + rewrite forallb_app, (inv_no_remove w I). reflexivity.
    + intros _. rewrite existsb_app. simpl.
      unfold bound_to at 2; simpl. rewrite Nat.eqb_refl.
      now rewrite orb_true_r.
    + intros n' V'. rewrite V in V'. injection V' as <-. eauto.
  - destruct I. split; simpl; auto; discriminate.
  - rewrite (scroll_step offset w (inv_toggle w I)).
    destruct I as [T R J L D A N B V]. split; simpl; auto.
    unfold mounted, flag_after; simpl. intros M. apply B.
    unfold mounted. destruct (hook w); [reflexivity|discriminate].
  - rewrite (click_step w I). destruct (clickable w); [|exact I].
    destruct I as [T R J L D A N B V]. split; simpl; auto.
    + unfold added. rewrite flat_map_app. simpl.
      fold (added (calls w)). now rewrite app_nil_r.
    + rewrite forallb_app, N. reflexivity.
Qed.

Lemma run_app (evs evs' : list event) (w : world) :
  run cls (evs ++ evs') w = run cls evs' (run cls evs w).
Proof. apply fold_left_app. Qed.

Lemma run_inv (evs : list event) :
  forall w, inv w -> inv (run cls evs w).
Proof.
  induction evs as [|e evs IH]; intros w I; [exact I|].
  simpl. apply IH, step_inv, I.
Qed.

Lemma reachable_inv (evs : list event) (offset : Q) :
  inv (run cls evs (initial offset)).
Proof. apply run_inv, inv_initial. Qed.

(** *** What a scroll event does to the flag *)

Lemma scroll_flag (offset : Q) (w : world) :
  inv w -> mounted w = true ->
  visible (step cls (EvScroll offset) w) = Some (above offset).
Proof.
  intros I M. rewrite (scroll_step offset w (inv_toggle w I)).
  pose proof (inv_bound w I M) as B.
  unfold visible, flag_after, mounted in *; simpl.
  destruct (hook w); [|discriminate]. now rewrite B.
Qed.

Lemma scroll_twice (offset : Q) (w : world) :
  inv w ->
  step cls (EvScroll offset) (step cls (EvScroll offset) w) =
  step cls (EvScroll offset) w.
Proof.
  intros I. pose proof (step_inv (EvScroll offset) w I) as I'.
  rewrite (scroll_step offset _ (inv_toggle _ I')).
  rewrite (scroll_step offset w (inv_toggle w I)).
  destruct w as [q ls cs h j r n]; unfold flag_after; simpl.
  destruct h as [old|]; [|reflexivity].
  now destruct (existsb (bound_to j) ls).
Qed.

(** C1: for every scroll event that reaches the mounted widget, the
    visibility flag afterwards is true exactly when the document's vertical
    scroll offset is strictly greater than 300 and false exactly when it is
    at most 300; at an offset of exactly 300 the flag is false. *)
Theorem scroll_sets_flag_by_threshold
    (evs : list event) (start offset : Q) :
  mounted (run cls evs (initial start)) = true ->
  (visible (step cls (EvScroll offset) (run cls evs (initial start)))
     = Some true <-> 300 < offset) /\
  (visible (step cls (EvScroll offset) (run cls evs (initial start)))
     = Some false <-> offset <= 300) /\
  visible (step cls (EvScroll 300) (run cls evs (initial start)))
     = Some false.
Proof.
  intros M. pose proof (reachable_inv evs start) as I.
  rewrite !scroll_flag by assumption.
  split; [|split].
  - rewrite <- above_true. split; [now intros [= ->]|now intros ->].
  - rewrite <- above_false. split; [now intros [= ->]|now intros ->].
  - reflexivity.
Qed.

(** C8: the scroll handler is idempotent and history-independent: the flag
    after a scroll event depends on the offset only, whatever happened to
    the widget before, and handling the same offset a second time leaves
    the whole page state, the flag included, as the first time left it. *)
Theorem scroll_handler_idempotent_history_independent
    (evs1 evs2 : list event) (start1 start2 offset : Q) :
  mounted (run cls evs1 (initial start1)) = true ->
  mounted (run cls evs2 (initial start2)) = true ->
  visible (step cls (EvScroll offset) (run cls evs1 (initial start1))) =
  visible (step cls (EvScroll offset) (run cls evs2 (initial start2))) /\
  visible (step cls (EvScroll offset) (run cls evs1 (initial start1))) =
  Some (above offset) /\
  step cls (EvScroll offset)
    (step cls (EvScroll offset) (run cls evs1 (initial start1))) =
  step cls (EvScroll offset) (run cls evs1 (initial start1)).
Proof.
  intros M1 M2.
  pose proof (reachable_inv evs1 start1) as I1.
  pose proof (reachable_inv evs2 start2) as I2.
  rewrite !scroll_flag by assumption.
  repeat split. now apply scroll_twice.
Qed.

(** *** Creation of the flag *)

Lemma no_scroll_keeps_false (evs : list event) :
  forall w,
    inv w ->
    visible w = None \/ visible w = Some false ->
    forallb (fun e => negb (is_scroll e)) evs = true ->
    visible (run cls evs w) = None \/ visible (run cls evs w) = Some false.
Proof.
  induction evs as [|e evs IH]; intros w I V N; [exact V|].
  simpl in N. apply andb_true_iff in N as [Ne N].
  simpl. apply IH; [now apply step_inv| |exact N].
  destruct e as [| |offset|]; try discriminate.
  - destruct (render_listeners w I) as (i & _ & _ & _ & _ & _ & H & _).
    unfold visible in *. rewrite H. right.
    destruct V as [-> | ->]; reflexivity.
  - now left.
  - rewrite (click_step w I). now destruct (clickable w).
Qed.

(** C5: the visibility flag is a boolean that the first render of an
    instance creates with the value false, so the widget starts hidden, and
    the flag is still false as long as no scroll event has been handled. *)
Theorem flag_initially_false (evs : list event) (start : Q) :
  (mounted (run cls evs (initial start)) = false ->
   visible (step cls EvRender (run cls evs (initial start))) = Some false /\
   exists n,
     view (step cls EvRender (run cls evs (initial start))) = Some n /\
     display n = Some "none") /\
  (forallb (fun e => negb (is_scroll e)) evs = true ->
   visible (run cls evs (initial start)) = None \/
   visible (run cls evs (initial start)) = Some false).
Proof.
  pose proof (reachable_inv evs start) as I. split.
  - intros M.
    destruct (render_listeners _ I)
      as (i & _ & _ & _ & _ & _ & H & _ & n & V & _ & D).
    unfold visible, mounted in *.
    destruct (hook (run cls evs (initial start))); [discriminate|].
    split; [exact H|]. exists n. now split.
  - apply no_scroll_keeps_false; [apply inv_initial|now left].
Qed.

(** *** The click handler *)

(** C4: every click on the widget while it is displayed runs the click
    handler, which issues exactly one scroll request, to offset 0 with
    smooth behaviour, changes nothing else, completes normally (it does not
    throw) and returns undefined. *)
Theorem click_requests_one_smooth_scroll_to_top
    (evs : list event) (start : Q) :
  clickable (run cls evs (initial start)) = true ->
  step cls EvClick (run cls evs (initial start)) =
    with_calls
      (calls (run cls evs (initial start))
       ++ [ScrollTo {| top := 0; behavior := Smooth |}])
      (run cls evs (initial start)) /\
  scroll_requests (calls (step cls EvClick (run cls evs (initial start)))) =
    scroll_requests (calls (run cls evs (initial start)))
    ++ [{| top := 0; behavior := Smooth |}] /\
  exists n c,
    view (run cls evs (initial start)) = Some n /\
    onClick n = Some c /\
    fst (call c (run cls evs (initial start))) = Normal Undefined /\
    snd (call c (run cls evs (initial start))) =
      step cls EvClick (run cls evs (initial start)).
Proof.
  intros C. pose proof (reachable_inv evs start) as I.
  set (w := run cls evs (initial start)) in *.
  pose proof (click_step w I) as S. rewrite C in S.
  split; [exact S|]. split.
  - rewrite S. unfold scroll_requests; simpl.
    now rewrite flat_map_app.
  - unfold clickable in C. destruct (view w) as [n|] eqn:V; [|discriminate].
    destruct (inv_view w I n V) as (i & k & O).
    exists n, (ScrollToTopOf i k). rewrite S. repeat split. exact O.
Qed.

(** *** The scroll listeners *)

(** What the component leaves out: a removeEventListener call with the
    function object of a listener takes that listener off the list. *)
Lemma removeEventListener_removes (type : string) (cb : closure) (w : world) :
  ~ In (type, cb) (listeners (Window.removeEventListener type cb w)) /\
  is_remove (last (calls (Window.removeEventListener type cb w))
               (ScrollTo {| top := 0; behavior := Auto |})) = true.
Proof.
  unfold Window.removeEventListener; simpl. split.
  - intros H. apply filter_In in H as [_ H].
    unfold same_listener in H; simpl in H.
    rewrite String.eqb_refl in H.
    destruct cb as [i k|i k]; simpl in H; now rewrite !Nat.eqb_refl in H.
  - now rewrite last_last.
Qed.

Lemma step_listeners (e : event) (w : world) :
  inv w ->
  exists more, listeners (step cls e w) = listeners w ++ more.
Proof.
  intros I. destruct e as [| |offset|].
  - destruct (render_listeners w I) as (i & _ & L & _). eauto.
  - exists []. simpl. now rewrite app_nil_r.
  - exists []. rewrite (scroll_step offset w (inv_toggle w I)).
    simpl. now rewrite app_nil_r.
  - exists []. rewrite (click_step w I), app_nil_r.
    now destruct (clickable w).
Qed.

Lemma run_listeners (evs : list event) :
  forall w, inv w ->
  exists more, listeners (run cls evs w) = listeners w ++ more.
Proof.
  induction evs as [|e evs IH]; intros w I.
  - exists []. simpl. now rewrite app_nil_r.
  - simpl. destruct (step_listeners e w I) as (m1 & E1).
    destruct (IH _ (step_inv e w I)) as (m2 & E2).
    exists (m1 ++ m2). now rewrite E2, E1, app_assoc.
Qed.

Lemma step_renders (e : event) (w : world) :
  inv w ->
  renders (step cls e w) =
  (renders w + List.length (filter is_render [e]))%nat.
Proof.
  intros I. destruct e as [| |offset|].
  - destruct (render_listeners w I) as (i & _ & _ & _ & _ & R & _).
    rewrite R. simpl. lia.
  - simpl. lia.
  - rewrite (scroll_step offset w (inv_toggle w I)). simpl. lia.
  - rewrite (click_step w I). destruct (clickable w); simpl; lia.
Qed.

Lemma run_renders (evs : list event) :
  forall w, inv w ->
  renders (run cls evs w) =
  (renders w + List.length (filter is_render evs))%nat.
Proof.
  induction evs as [|e evs IH]; intros w I; simpl; [lia|].
  rewrite (IH _ (step_inv e w I)), (step_renders e w I). simpl.
  destruct (is_render e); simpl; lia.
Qed.

(** The page after [n] renders in a row of one instance, nothing else
    happening. *)
Lemma renders_in_a_row (start : Q) (n : nat) :
  let w := run cls (repeat EvRender n) (initial start) in
  listeners w = map (fun k => ("scroll", ToggleVisibleOf 1 k)) (seq 0 n) /\
  renders w = n /\
  inst w = (if Nat.eqb n 0 then 0 else 1)%nat /\
  mounted w = negb (Nat.eqb n 0).
Proof.
  induction n as [|n IH].
  - repeat split.
  - cbv zeta in *. destruct IH as (L & R & J & M).
    change (repeat EvRender (S n)) with (EvRender :: repeat EvRender n).
    rewrite repeat_cons, run_app.
    set (w := run cls (repeat EvRender n) (initial start)) in *.
    assert (I : inv w) by apply reachable_inv.
    change (run cls [EvRender] w) with (step cls EvRender w).
    destruct (render_listeners w I)
      as (i & Hi & L' & _ & J' & R' & H' & _).
    assert (i = 1%nat) as -> by (rewrite Hi, M, J; now destruct n).
    rewrite L', R', J', L, R, seq_S, map_app. repeat split.
    unfold mounted. now rewrite H'.
Qed.

(** C6: every render registers a scroll listener on the window, and the
    widget never deregisters one: whatever the component goes through,
    unmounting included, no removeEventListener call is made, and every
    listener once on the window's list stays on it. *)
Theorem scroll_listener_never_removed
    (evs later : list event) (start : Q) :
  (exists i k,
     calls (step cls EvRender (run cls evs (initial start))) =
       calls (run cls evs (initial start))
       ++ [AddEventListener "scroll" (ToggleVisibleOf i k)] /\
     In ("scroll", ToggleVisibleOf i k)
       (listeners (step cls EvRender (run cls evs (initial start))))) /\
  forallb (fun c => negb (is_remove c))
    (calls (run cls evs (initial start))) = true /\
  (exists more,
     listeners (run cls (evs ++ later) (initial start)) =
     listeners (run cls evs (initial start)) ++ more) /\
  listeners (step cls EvUnmount (run cls evs (initial start))) =
    listeners (run cls evs (initial start)).
Proof.
  pose proof (reachable_inv evs start) as I. repeat split.
  - destruct (render_listeners _ I) as (i & _ & L & C & _).
    exists i, (renders (run cls evs (initial start))). split; [exact C|].
    rewrite L. apply in_or_app. right. now left.
  - apply (inv_no_remove _ I).
  - rewrite run_app. now apply run_listeners.
Qed.

(** C10: the scroll listener is registered by every run of the component
    function, not once per mount: the window holds as many listeners as
    there were renders, each one a distinct [toggleVisible] closure passed
    to addEventListener, and after [n] renders of a single mounted instance
    it holds [n] of them. *)
Theorem listener_added_on_every_render
    (evs : list event) (start : Q) (n : nat) :
  List.length (listeners (run cls evs (initial start))) =
    List.length (filter is_render evs) /\
  added (calls (run cls evs (initial start))) =
    listeners (run cls evs (initial start)) /\
  forallb toggle_listener (listeners (run cls evs (initial start))) = true /\
  NoDup (listeners (run cls evs (initial start))) /\
  listeners (run cls (repeat EvRender n) (initial start)) =
    map (fun k => ("scroll", ToggleVisibleOf 1 k)) (seq 0 n).
Proof.
  pose proof (reachable_inv evs start) as I. repeat split.
  - rewrite (inv_length _ I), run_renders by apply inv_initial.
    reflexivity.
  - apply (inv_added _ I).
  - apply (inv_toggle _ I).
  - apply (NoDup_map_inv render_of). rewrite (inv_ids _ I).
    apply seq_NoDup.
  - apply renders_in_a_row.
Qed.

End ScrollTop_properties.

(** The widget on concrete traces, on a page whose CSS module exports the
    class name [ScrollTop_scrollTop]. *)

Example nan_takes_neither_branch :
  JS.gt JS.NaN (JS.Num 300) = false /\ JS.le JS.NaN (JS.Num 300) = false.
Proof. split; reflexivity. Qed.

Example flag_around_the_threshold :
  map (fun q => visible (run "ScrollTop_scrollTop" [EvRender; EvScroll q]
                           (initial 0)))
      [0; 299; 300; 3001 # 10; 301; 5000] =
  [Some false; Some false; Some false; Some true; Some true; Some true].
Proof. reflexivity. Qed.

Example listeners_outlive_the_instance :
  listeners
    (run "ScrollTop_scrollTop"
       [EvRender; EvScroll 301; EvRender; EvUnmount; EvScroll 20; EvRender]
       (initial 0)) =
  [("scroll", ToggleVisibleOf 1 0); ("scroll", ToggleVisibleOf 1 1);
   ("scroll", ToggleVisibleOf 2 2)].
Proof. reflexivity. Qed.

Example hidden_widget_takes_no_click :
  calls (run "ScrollTop_scrollTop" [EvRender; EvClick] (initial 0)) =
  [AddEventListener "scroll" (ToggleVisibleOf 1 0)].
Proof. reflexivity. Qed.

(** Witnesses of the theorems on the widget. *)

Lemma scroll_sets_flag_by_threshold_witness :
  mounted (run "ScrollTop_scrollTop" [EvRender] (initial 0)) = true /\
  (visible
     (step "ScrollTop_scrollTop" (EvScroll (601 # 2))
        (run "ScrollTop_scrollTop" [EvRender] (initial 0)))
   = Some true <-> 300 < 601 # 2).
Proof.
  split; [reflexivity|].
  apply (scroll_sets_flag_by_threshold
           "ScrollTop_scrollTop" [EvRender] 0 (601 # 2)).
  reflexivity.
Defined.

Lemma scroll_handler_idempotent_history_independent_witness :
  visible
    (step "ScrollTop_scrollTop" (EvScroll 120)
       (run "ScrollTop_scrollTop" [EvRender; EvScroll 900] (initial 0))) =
  visible
    (step "ScrollTop_scrollTop" (EvScroll 120)
       (run "ScrollTop_scrollTop" [EvRender] (initial 450))).
Proof.
  apply (scroll_handler_idempotent_history_independent
           "ScrollTop_scrollTop" [EvRender; EvScroll 900] [EvRender]
           0 450 120); reflexivity.
Defined.

Lemma flag_initially_false_witness :
  visible
    (step "ScrollTop_scrollTop" EvRender
       (run "ScrollTop_scrollTop" [] (initial 450))) = Some false /\
  (visible (run "ScrollTop_scrollTop" [EvRender; EvClick] (initial 450))
     = None \/
   visible (run "ScrollTop_scrollTop" [EvRender; EvClick] (initial 450))
     = Some false).
Proof.
  split.
  - apply (flag_initially_false "ScrollTop_scrollTop" [] 450). reflexivity.
  - apply (flag_initially_false "ScrollTop_scrollTop" [EvRender; EvClick] 450).
    reflexivity.
Defined.

Lemma click_requests_one_smooth_scroll_to_top_witness :
  clickable
    (run "ScrollTop_scrollTop" [EvRender; EvScroll 301; EvRender] (initial 0))
    = true /\
  scroll_requests
    (calls
       (step "ScrollTop_scrollTop" EvClick
          (run "ScrollTop_scrollTop" [EvRender; EvScroll 301; EvRender]
             (initial 0)))) =
  scroll_requests
    (calls
       (run "ScrollTop_scrollTop" [EvRender; EvScroll 301; EvRender]
          (initial 0)))
  ++ [{| top := 0; behavior := Smooth |}].
Proof.
  split; [reflexivity|].
  apply (click_requests_one_smooth_scroll_to_top
           "ScrollTop_scrollTop" [EvRender; EvScroll 301; EvRender] 0).
  reflexivity.
Defined.

(* ------------------------------------------------------------------ *)
(** * Properties of the theme configuration *)

Section ThemeConfig_properties.

Import ThemeConfig.

(** The clock and the environment at the evaluation of the module. *)
Variable now : Date.
Variable env : list (string * string).

Lemma prefix_append (s t u : string) :
  String.prefix s ((s ++ t) ++ u)%string = true.
Proof.
  induction s as [|c s IH]; simpl.
  - now destruct (t ++ u)%string.
  - destruct (ascii_dec c c) as [_|N]; [exact IH|now destruct N].
Qed.

Lemma prefix_is_substring (s t : string) :
  String.prefix s t = true -> is_substring s t = true.
Proof.
  intros P. destruct t; cbn [is_substring]; rewrite P; reflexivity.
Qed.

Example footer_of_2022 :
  option_map text_content
    (find_tag "time"
       (footer {| getFullYear := 2022; getMonth := 5; getDate := 26 |})) =
    Some "2022" /\
  String.prefix "2022 © lando.RSS"
    (text_content
       (footer {| getFullYear := 2022; getMonth := 5; getDate := 26 |})) =
    true.
Proof. split; reflexivity. Qed.

(** The footer markup carries [YEAR], the year read when the module is
    evaluated: its [<time>] element shows exactly that year in decimal, and
    the text of the footer contains it. *)
Lemma footer_carries_YEAR :
  get (default now env) "footer" = Some (Element (footer now)) /\
  option_map text_content (find_tag "time" (footer now)) =
    Some (string_of_Z (getFullYear now)) /\
  is_substring (string_of_Z (getFullYear now)) (text_content (footer now))
    = true.
Proof.
  split; [reflexivity|]. split; [reflexivity|].
  apply prefix_is_substring.
  cbn [text_content footer map String.concat YEAR].
  apply prefix_append.
Qed.

(** C2, as stated, fails: [YEAR] is read once, when the module is
    evaluated.  A module evaluated on 31 December 2022 gives a footer that,
    rendered on 1 January 2023, shows 2022 and nowhere 2023. *)
Lemma footer_rendered_next_year_shows_old_year :
  rendered_footer
    {| getFullYear := 2022; getMonth := 11; getDate := 31 |}
    {| getFullYear := 2023; getMonth := 0; getDate := 1 |} [] =
    Some (footer {| getFullYear := 2022; getMonth := 11; getDate := 31 |}) /\
  option_map text_content
    (find_tag "time"
       (footer {| getFullYear := 2022; getMonth := 11; getDate := 31 |})) =
    Some "2022" /\
  is_substring "2023"
    (text_content
       (footer {| getFullYear := 2022; getMonth := 11; getDate := 31 |})) =
    false /\
  ~ shows_year_at_render.
Proof.
  split; [reflexivity|]. split; [reflexivity|]. split; [now vm_compute|].
  intros H.
  destruct (H {| getFullYear := 2022; getMonth := 11; getDate := 31 |}
              {| getFullYear := 2023; getMonth := 0; getDate := 1 |} [])
    as (n & R & S).
  injection R as <-. vm_compute in S. discriminate.
Qed.

(** C2, amended: for any system clock date, the footer produced by the
    site configuration contains the year of the clock at the time the
    configuration module is evaluated; it is the markup of that evaluation
    that is shown whenever the footer is rendered afterwards, whatever the
    clock shows then. *)
Theorem footer_shows_year_of_module_evaluation (rendered : Date) :
  rendered_footer now rendered env = Some (footer now) /\
  option_map text_content (find_tag "time" (footer now)) =
    Some (string_of_Z (getFullYear now)) /\
  is_substring (string_of_Z (getFullYear now)) (text_content (footer now))
    = true /\
  (forall later : Date,
     rendered_footer now later env = rendered_footer now rendered env).
Proof.
  destruct footer_carries_YEAR as (_ & T & S).
  split; [reflexivity|]. split; [exact T|]. split; [exact S|].
  reflexivity.
Qed.

(** C7: the exported configuration object has exactly the four recognized
    options, in this order: [cusdis], an object whose only field is
    [appId]; [darkMode], a boolean; [footer], rendered markup; [navs], an
    ordered list. *)
Theorem config_exposes_recognized_options :
  keys (default now env) = ["cusdis"; "darkMode"; "footer"; "navs"] /\
  (exists cusdis,
     get (default now env) "cusdis" = Some cusdis /\
     keys cusdis = ["appId"] /\
     get cusdis "appId" = Some (process_env env "NEXT_PUBLIC_CUSDIS_APP_ID")) /\
  get (default now env) "darkMode" = Some (Boolean true) /\
  get (default now env) "footer" = Some (Element (footer now)) /\
  get (default now env) "navs" = Some (Array navs).
Proof.
  split; [reflexivity|]. split; [|repeat split].
  eexists. repeat split.
Qed.

(** C9: the shipped configuration has an empty [navs] list: the layout is
    given no navigation entry. *)
Theorem navs_is_empty :
  get (default now env) "navs" = Some (Array []) /\
  navs = [] /\
  List.length navs = 0%nat.
Proof. repeat split. Qed.

End ThemeConfig_properties.

(* ------------------------------------------------------------------ *)
(** * Metadata of the content page *)

Section Page_properties.

Import Page.

(** C3, as stated, fails: the title declared in the front-matter of the
    page on maps starts with an emoji marker, and the head carries the
    title without it, so the declared title stands nowhere in the head. *)
Lemma declared_title_not_verbatim_in_head :
  In javascript_convert_array_of_objects_to_map content_pages /\
  lookup "title" (frontmatter javascript_convert_array_of_objects_to_map) =
    Some "📍 Maps in Javascript: Converting Arrays of Objects" /\
  appears_verbatim "📍 Maps in Javascript: Converting Arrays of Objects"
    (head javascript_convert_array_of_objects_to_map) = false /\
  ~ (forall p, In p content_pages -> metadata_verbatim p).
Proof.
  split; [now left|]. split; [reflexivity|]. split; [now vm_compute|].
  intros H.
  specialize (H _ (or_introl eq_refl) "title" "title" _
                (or_introl eq_refl) eq_refl).
  vm_compute in H. discriminate.
Qed.

(** C3, amended: for every content page, the description and the tag field
    of the front-matter are, character for character, the content of the
    head's description and keywords meta tags; the title is in the head
    without its leading emoji marker: the declared title is the marker
    followed by the content of the head's title meta tag. *)
Theorem metadata_in_head (p : page) :
  In p content_pages ->
  (forall v, lookup "description" (frontmatter p) = Some v ->
             meta_content "description" (head p) = Some v /\
             appears_verbatim v (head p) = true) /\
  (forall v, lookup "tag" (frontmatter p) = Some v ->
             meta_content "keywords" (head p) = Some v /\
             appears_verbatim v (head p) = true) /\
  (forall v, lookup "title" (frontmatter p) = Some v ->
             exists m, meta_content "title" (head p) = Some m /\
                       v = ("📍 " ++ m)%string /\
                       appears_verbatim m (head p) = true).
Proof.
  intros [<- | []].
  split; [|split]; intros v H; cbn in H; injection H as <-.
  - split; reflexivity.
  - split; reflexivity.
  - eexists. repeat split.
Qed.

Lemma metadata_in_head_witness :
  meta_content "keywords" (head javascript_convert_array_of_objects_to_map) =
    Some "web development, javascript, map, array, object" /\
  exists m,
    meta_content "title" (head javascript_convert_array_of_objects_to_map)
      = Some m /\
    "📍 Maps in Javascript: Converting Arrays of Objects" = ("📍 " ++ m)%string /\
    appears_verbatim m (head javascript_convert_array_of_objects_to_map)
      = true.
Proof.
  destruct (metadata_in_head javascript_convert_array_of_objects_to_map
              (or_introl eq_refl)) as (_ & K & T).
  split.
  - apply (K _ eq_refl).
  - apply (T _ eq_refl).
Defined.

End Page_properties.

(* ------------------------------------------------------------------ *)
(** * The lookups of the post *)

Section Post_properties.

Import Post.

Example post_data :
  object_lookup [1; 2; 3]%Z
    [{| id := 1; age := 10 |}; {| id := 2; age := 20 |};
     {| id := 3; age := 30 |}] [] =
  ([[PNumber 1; PNumber 10]; [PNumber 2; PNumber 20];
    [PNumber 3; PNumber 30]], None).
Proof. reflexivity. Qed.

Example duplicate_id_first_or_last :
  filter_lookup [7]%Z
    [{| id := 7; age := 10 |}; {| id := 7; age := 99 |}] [] =
    ([[PNumber 7; PNumber 10]], None) /\
  object_lookup [7]%Z
    [{| id := 7; age := 10 |}; {| id := 7; age := 99 |}] [] =
    ([[PNumber 7; PNumber 99]], None).
Proof. split; reflexivity. Qed.

Example missing_id_throws :
  object_lookup [1; 4; 2]%Z
    [{| id := 1; age := 10 |}; {| id := 2; age := 20 |}] [] =
  ([[PNumber 1; PNumber 10]], Some TypeError).
Proof. reflexivity. Qed.

(** *** Keys *)

Lemma to_int_not_nil (z : Z) :
  Z.to_int z <> Decimal.Pos Decimal.Nil /\
  Z.to_int z <> Decimal.Neg Decimal.Nil.
Proof.
  destruct z as [|p|p]; simpl; split; try discriminate;
    intros [= H]; now apply Unsigned.to_uint_nonnil in H.
Qed.

(** Two integers with the same decimal string are the same. *)
Lemma string_of_Z_inj (a b : Z) : string_of_Z a = string_of_Z b -> a = b.
Proof.
  unfold string_of_Z. intros H.
  assert (E : Some (Z.to_int a) = Some (Z.to_int b)).
  { rewrite <- (NilZero.isi (Z.to_int a)) by apply to_int_not_nil.
    rewrite <- (NilZero.isi (Z.to_int b)) by apply to_int_not_nil.
    now rewrite H. }
  injection E as E.
  rewrite <- (DecimalZ.of_to a), <- (DecimalZ.of_to b). now rewrite E.
Qed.

Lemma key_eqb (a b : Z) :
  String.eqb (string_of_Z a) (string_of_Z b) = Z.eqb a b.
Proof.
  destruct (Z.eqb_spec a b) as [->|N].
  - apply String.eqb_refl.
  - apply String.eqb_neq. intros E. now apply N, string_of_Z_inj.
Qed.

(** *** Insert and lookup *)

Lemma lookup_obj_set (k k' : string) (v : user) (o : object) :
  lookup k (obj_set k' v o) =
  if String.eqb k k' then Some v else lookup k o.
Proof.
  induction o as [|[k0 x] o IH]; simpl; [reflexivity|].
  destruct (String.eqb_spec k' k0) as [->|N]; simpl.
  - now destruct (String.eqb k k0).
  - rewrite IH. destruct (String.eqb_spec k k') as [->|_]; [|reflexivity].
    apply String.eqb_neq in N. now rewrite N.
Qed.

Lemma Map_get_set (k k' : Z) (v : user) (m : Map) :
  Map_get k (Map_set k' v m) = if Z.eqb k k' then Some v else Map_get k m.
Proof.
  induction m as [|[k0 x] m IH]; simpl; [reflexivity|].
  destruct (Z.eqb_spec k' k0) as [->|N]; simpl.
  - now destruct (Z.eqb k k0).
  - rewrite IH. destruct (Z.eqb_spec k k') as [->|_]; [|reflexivity].
    apply Z.eqb_neq in N. now rewrite N.
Qed.

Lemma find_app_or {A : Type} (p : A -> bool) (l1 l2 : list A) :
  find p (l1 ++ l2) =
  match find p l1 with Some x => Some x | None => find p l2 end.
Proof.
  induction l1 as [|a l1 IH]; simpl; [reflexivity|].
  now destruct (p a).
Qed.

Lemma object_of_rows (rows : list user) (k : Z) :
  forall o,
    lookup (string_of_Z k)
      (fold_left (fun a c => obj_set (string_of_Z (id c)) c a) rows o) =
    match find (has_id k) (rev rows) with
    | Some u => Some u
    | None => lookup (string_of_Z k) o
    end.
Proof.
  induction rows as [|c rows IH]; intros o; simpl; [reflexivity|].
  rewrite IH, find_app_or, lookup_obj_set, key_eqb. simpl.
  change (has_id k c) with (Z.eqb (id c) k). rewrite (Z.eqb_sym (id c) k).
  destruct (find (has_id k) (rev rows)); [reflexivity|].
  now destruct (Z.eqb k (id c)).
Qed.

Lemma map_of_rows (rows : list user) (k : Z) :
  forall m,
    Map_get k (fold_left (fun a c => Map_set (id c) c a) rows m) =
    match find (has_id k) (rev rows) with
    | Some u => Some u
    | None => Map_get k m
    end.
Proof.
  induction rows as [|c rows IH]; intros m; simpl; [reflexivity|].
  rewrite IH, find_app_or, Map_get_set. simpl.
  change (has_id k c) with (Z.eqb (id c) k). rewrite (Z.eqb_sym (id c) k).
  destruct (find (has_id k) (rev rows)); [reflexivity|].
  now destruct (Z.eqb k (id c)).
Qed.

Lemma filter_first (rows : list user) (k : Z) :
  at_index (filter (fun data => Z.eqb (id data) k) rows) 0 =
  find (has_id k) rows.
Proof.
  induction rows as [|c rows IH]; simpl; [reflexivity|].
  unfold has_id at 1. now destruct (Z.eqb (id c) k).
Qed.

(** *** The loops *)

Lemma forEach_from_ext {A : Type}
    (cb1 cb2 : A -> nat -> console -> error + console) (a : list A) :
  forall i out,
    (forall n x out,
        nth_error a n = Some x -> cb1 x (i + n)%nat out = cb2 x (i + n)%nat out) ->
    forEach_from cb1 a i out = forEach_from cb2 a i out.
Proof.
  induction a as [|x a IH]; intros i out H; simpl; [reflexivity|].
  pose proof (H 0%nat x out eq_refl) as H0. rewrite Nat.add_0_r in H0.
  rewrite H0. destruct (cb2 x i out) as [e|out']; [reflexivity|].
  apply IH. intros n y o Hn. specialize (H (S n) y o Hn).
  now rewrite Nat.add_succ_r in H.
Qed.

Lemma filter_lookup_logging (ids : list Z) (rows : list user) (out : console) :
  filter_lookup ids rows out =
  forEach_from (fun k _ => logging (fun k => find (has_id k) rows) k)
    ids 0 out.
Proof.
  unfold filter_lookup, forEach. apply forEach_from_ext.
  intros n x o Hn. cbv zeta. unfold logging.
  rewrite filter_first, Nat.add_0_l. unfold at_index. now rewrite Hn.
Qed.

Lemma object_lookup_logging (ids : list Z) (rows : list user) (out : console) :
  object_lookup ids rows out =
  forEach_from (fun k _ => logging (fun k => find (has_id k) (rev rows)) k)
    ids 0 out.
Proof.
  unfold object_lookup, forEach. apply forEach_from_ext.
  intros n x o Hn. unfold logging, userAgeObj.
  rewrite object_of_rows. simpl.
  now destruct (find (has_id x) (rev rows)).
Qed.

Lemma map_lookup_logging (ids : list Z) (rows : list user) (out : console) :
  map_lookup ids rows out =
  forEach_from (fun k _ => logging (fun k => find (has_id k) (rev rows)) k)
    ids 0 out.
Proof.
  unfold map_lookup, forEach. apply forEach_from_ext.
  intros n x o Hn. unfold logging, userAgeMap.
  rewrite map_of_rows. simpl.
  now destruct (find (has_id x) (rev rows)).
Qed.

Lemma logging_present (get : Z -> option user) (ids : list Z) :
  Forall (fun k => get k <> None) ids ->
  forall i out,
    forEach_from (fun k _ => logging get k) ids i out =
    (out ++ entries get ids, None).
Proof.
  induction 1 as [|k ids Hk _ IH]; intros i out; simpl.
  - now rewrite app_nil_r.
  - unfold logging at 1, entries. simpl.
    destruct (get k) as [u|]; [|now destruct Hk]. simpl.
    rewrite IH. unfold entries. now rewrite <- app_assoc.
Qed.

Lemma logging_missing (get : Z -> option user) (pre post : list Z) (k : Z) :
  Forall (fun k => get k <> None) pre ->
  get k = None ->
  forall i out,
    forEach_from (fun k _ => logging get k) (pre ++ k :: post) i out =
    (out ++ entries get pre, Some TypeError).
Proof.
  induction 1 as [|j pre Hj _ IH]; intros Hk i out; simpl.
  - unfold logging. rewrite Hk. simpl. now rewrite app_nil_r.
  - unfold logging at 1, entries. simpl.
    destruct (get j) as [u|]; [|now destruct Hj]. simpl.
    rewrite (IH Hk). unfold entries. now rewrite <- app_assoc.
Qed.

Lemma find_has_id_none (rows : list user) (k : Z) :
  find (has_id k) rows = None <-> ~ In k (map id rows).
Proof.
  split.
  - intros F I. apply in_map_iff in I as (u & E & I).
    pose proof (find_none _ _ F u I) as N.
    unfold has_id in N. rewrite E, Z.eqb_refl in N. discriminate.
  - intros N. destruct (find (has_id k) rows) as [u|] eqn:F; [|reflexivity].
    apply find_some in F as [I E]. unfold has_id in E.
    apply Z.eqb_eq in E. destruct N. apply in_map_iff. eauto.
Qed.

Lemma find_has_id_rev_none (rows : list user) (k : Z) :
  find (has_id k) (rev rows) = None <-> ~ In k (map id rows).
Proof.
  rewrite find_has_id_none, map_rev. split; intros N I; apply N.
  - now apply in_rev in I.
  - now apply in_rev.
Qed.

Lemma present_first (rows : list user) (ids : list Z) :
  Forall (fun k => In k (map id rows)) ids ->
  Forall (fun k => find (has_id k) rows <> None) ids.
Proof.
  apply Forall_impl. intros k I F. now apply find_has_id_none in F.
Qed.

Lemma present_last (rows : list user) (ids : list Z) :
  Forall (fun k => In k (map id rows)) ids ->
  Forall (fun k => find (has_id k) (rev rows) <> None) ids.
Proof.
  apply Forall_impl. intros k I F. now apply find_has_id_rev_none in F.
Qed.

(** With pairwise distinct ids the first and the last row of an id are
    the same row. *)
Lemma unique_first_is_last (rows : list user) (k : Z) :
  NoDup (map id rows) ->
  find (has_id k) (rev rows) = find (has_id k) rows.
Proof.
  induction rows as [|c rows IH]; intros N; [reflexivity|].
  simpl in N. apply NoDup_cons_iff in N as [Nc N].
  simpl. rewrite find_app_or, (IH N). simpl.
  change (has_id k c) with (Z.eqb (id c) k).
  destruct (Z.eqb_spec (id c) k) as [E|_].
  - assert (F : find (has_id k) rows = None)
      by (apply find_has_id_none; now rewrite <- E).
    now rewrite F.
  - now destruct (find (has_id k) rows).
Qed.

(** Either every id has a row, or there is a first id without one. *)
Lemma first_missing (rows : list user) (ids : list Z) :
  Forall (fun k => In k (map id rows)) ids \/
  exists pre k post,
    ids = pre ++ k :: post /\
    Forall (fun k => In k (map id rows)) pre /\
    ~ In k (map id rows).
Proof.
  induction ids as [|j ids IH]; [now left|].
  destruct (in_dec Z.eq_dec j (map id rows)) as [I|N].
  - destruct IH as [A|(pre & k & post & -> & A & N)].
    + left. now constructor.
    + right. exists (j :: pre), k, post. repeat split; [now constructor|exact N].
  - right. exists [], j, ids. repeat split; [constructor|exact N].
Qed.

(** X6: the index built by [reduce] answers each id with the last row of
    that id in the array, and with undefined exactly for the ids that no
    row has. *)
Theorem index_finds_last_row (rows : list user) (k : Z) :
  lookup (string_of_Z k) (userAgeObj rows) = find (has_id k) (rev rows) /\
  (lookup (string_of_Z k) (userAgeObj rows) = None <->
   ~ In k (map id rows)).
Proof.
  assert (E : lookup (string_of_Z k) (userAgeObj rows) =
              find (has_id k) (rev rows)).
  { unfold userAgeObj. rewrite object_of_rows. simpl.
    now destruct (find (has_id k) (rev rows)). }
  split; [exact E|]. rewrite E. apply find_has_id_rev_none.
Qed.

(** X7: the [Map] keyed by the numbers and the object keyed by their decimal
    strings hold the same row for every id, so the loop over the [Map]
    prints and ends as the loop over the object does. *)
Theorem map_agrees_with_object (rows : list user) :
  (forall k, Map_get k (userAgeMap rows) =
             lookup (string_of_Z k) (userAgeObj rows)) /\
  (forall ids out, map_lookup ids rows out = object_lookup ids rows out).
Proof.
  split.
  - intros k. unfold userAgeMap, userAgeObj.
    now rewrite map_of_rows, object_of_rows.
  - intros ids out. now rewrite map_lookup_logging, object_lookup_logging.
Qed.

(** X8: when every id has a row, the filter loop and the object loop both end
    without an error and print one line per id: the filter loop the age of
    the first row with that id, the object loop the age of the last. *)
Theorem lookups_print_first_and_last
    (ids : list Z) (rows : list user) (out : console) :
  Forall (fun k => In k (map id rows)) ids ->
  filter_lookup ids rows out =
    (out ++ entries (fun k => find (has_id k) rows) ids, None) /\
  object_lookup ids rows out =
    (out ++ entries (fun k => find (has_id k) (rev rows)) ids, None).
Proof.
  intros P. split.
  - rewrite filter_lookup_logging. apply logging_present.
    now apply present_first.
  - rewrite object_lookup_logging. apply logging_present.
    now apply present_last.
Qed.

(** X9: at the first id that no row has, the filter loop and the object loop
    both end with a TypeError; the console holds what the ids before it
    printed, and nothing of the ids after it. *)
Theorem lookup_throws_at_first_missing_id
    (pre post : list Z) (k : Z) (rows : list user) (out : console) :
  Forall (fun k => In k (map id rows)) pre ->
  ~ In k (map id rows) ->
  filter_lookup (pre ++ k :: post) rows out =
    (fst (filter_lookup pre rows out), Some TypeError) /\
  object_lookup (pre ++ k :: post) rows out =
    (fst (object_lookup pre rows out), Some TypeError).
Proof.
  intros P N. split.
  - rewrite !filter_lookup_logging.
    rewrite (logging_missing _ pre post k (present_first rows pre P))
      by now apply find_has_id_none.
    now rewrite (logging_present _ pre (present_first rows pre P)).
  - rewrite !object_lookup_logging.
    rewrite (logging_missing _ pre post k (present_last rows pre P))
      by now apply find_has_id_rev_none.
    now rewrite (logging_present _ pre (present_last rows pre P)).
Qed.

(** X10: when the ids of the rows are pairwise distinct, the filter loop and
    the object loop print the same lines and end the same way, for every
    list of ids, a missing id included. *)
Theorem lookups_agree_on_unique_ids
    (ids : list Z) (rows : list user) (out : console) :
  NoDup (map id rows) ->
  filter_lookup ids rows out = object_lookup ids rows out.
Proof.
  intros N. rewrite filter_lookup_logging, object_lookup_logging.
  apply forEach_from_ext. intros n x o _. unfold logging.
  now rewrite unique_first_is_last.
Qed.

Lemma for_from_suffix (ids : list Z) (rows : list user) (suffix : list Z) :
  forall i out,
    (forall n, (n < List.length suffix)%nat ->
               nth_error ids (i + n) = nth_error suffix n) ->
    for_from ids rows (List.length suffix) i =
    snd (forEach_from
           (fun k _ => logging (fun k => find (has_id k) (rev rows)) k)
           suffix i out).
Proof.
  induction suffix as [|x suffix IH]; intros i out H; [reflexivity|].
  simpl. unfold key_at, at_index, logging.
  pose proof (H 0%nat (Nat.lt_0_succ _)) as H0.
  rewrite Nat.add_0_r in H0. rewrite H0. simpl.
  unfold userAgeObj. rewrite object_of_rows. simpl.
  destruct (find (has_id x) (rev rows)) as [u|]; simpl; [|reflexivity].
  apply IH. intros n L.
  assert (L' : (S n < List.length (x :: suffix))%nat) by (simpl; lia).
  pose proof (H (S n) L') as Hn. simpl in Hn. rewrite <- Hn.
  f_equal. lia.
Qed.

(** X11: the plain [for] loop over the object ends as the [forEach] loop over
    it does: without an error exactly when every id has a row, with a
    TypeError otherwise. *)
Theorem for_loop_throws_like_forEach
    (ids : list Z) (rows : list user) (out : console) :
  for_loop ids rows = snd (object_lookup ids rows out) /\
  (for_loop ids rows = None <-> Forall (fun k => In k (map id rows)) ids).
Proof.
  assert (E : for_loop ids rows = snd (object_lookup ids rows out)).
  { rewrite object_lookup_logging. unfold for_loop.
    now apply for_from_suffix. }
  split; [exact E|]. rewrite E. split.
  - intros S. destruct (first_missing rows ids)
      as [A|(pre & k & post & -> & A & N)]; [exact A|].
    rewrite object_lookup_logging in S.
    rewrite (logging_missing _ pre post k (present_last rows pre A)) in S
      by now apply find_has_id_rev_none.
    discriminate.
  - intros A. rewrite object_lookup_logging.
    now rewrite (logging_present _ ids (present_last rows ids A)).
Qed.

(** *** The loop by position *)

Lemma ordered_from (ids : list Z) (rows : list user) (a : list Z) :
  forall i out,
    forEach_from
      (fun (_ : Z) index out =>
         inr (out ++ [[print_number (at_index ids index);
                       print_user (at_index rows index)]]))
      a i out =
    (out ++ map (fun index => [print_number (at_index ids index);
                               print_user (at_index rows index)])
              (seq i (List.length a)), None).
Proof.
  induction a as [|x a IH]; intros i out; simpl.
  - now rewrite app_nil_r.
  - rewrite IH. now rewrite <- app_assoc.
Qed.

Lemma aligned_rows (rows : list user) :
  forall pre,
    map (fun index =>
           [print_number (at_index (map id (pre ++ rows)) index);
            print_user (at_index (pre ++ rows) index)])
      (seq (List.length pre) (List.length rows)) =
    map (fun u => [PNumber (id u); PUser u]) rows.
Proof.
  induction rows as [|c rows IH]; intros pre; [reflexivity|].
  simpl. f_equal.
  - unfold at_index. rewrite nth_error_map.
    rewrite nth_error_app2, Nat.sub_diag by lia. reflexivity.
  - specialize (IH (pre ++ [c])).
    rewrite <- app_assoc, length_app in IH. simpl in IH.
    rewrite Nat.add_1_r in IH. exact IH.
Qed.

(** X12: the loop by position never throws and prints one line per id: the id
    with the row at the same position, or with undefined where the rows
    have ended.  When the rows come in the order of the ids, each line
    holds an id and the row of that id. *)
Theorem ordered_lookup_pairs_by_position
    (ids : list Z) (rows : list user) (out : console) :
  ordered_lookup ids rows out =
    (out ++ map (fun index => [print_number (at_index ids index);
                               print_user (at_index rows index)])
              (seq 0 (List.length ids)), None) /\
  (map id rows = ids ->
   ordered_lookup ids rows out =
     (out ++ map (fun u => [PNumber (id u); PUser u]) rows, None)).
Proof.
  assert (E := ordered_from ids rows ids 0%nat out).
  split; [exact E|]. intros A. unfold ordered_lookup, forEach.
  rewrite E, <- A, length_map. f_equal. f_equal.
  apply (aligned_rows rows []).
Qed.

(** *** The keys of the index *)








(** Witnesses, on the data of the post. *)

Lemma lookups_print_first_and_last_witness :
  object_lookup [1; 2; 3]%Z
    [{| id := 1; age := 10 |}; {| id := 2; age := 20 |};
     {| id := 3; age := 30 |}] [] =
  ([] ++
   entries
     (fun k =>
        find (has_id k)
          (rev [{| id := 1; age := 10 |}; {| id := 2; age := 20 |};
                {| id := 3; age := 30 |}]))
     [1; 2; 3]%Z, None).
Proof.
  apply (lookups_print_first_and_last [1; 2; 3]%Z
           [{| id := 1; age := 10 |}; {| id := 2; age := 20 |};
            {| id := 3; age := 30 |}] []).
  repeat constructor; simpl; tauto.
Defined.

Lemma lookup_throws_at_first_missing_id_witness :
  object_lookup ([1] ++ 4 :: [2])%Z
    [{| id := 1; age := 10 |}; {| id := 2; age := 20 |}] [] =
  (fst (object_lookup [1]%Z
          [{| id := 1; age := 10 |}; {| id := 2; age := 20 |}] []),
   Some TypeError).
Proof.
  apply (lookup_throws_at_first_missing_id [1]%Z [2]%Z 4%Z
           [{| id := 1; age := 10 |}; {| id := 2; age := 20 |}] []).
  - repeat constructor; simpl; tauto.
  - simpl. intros [H|[H|[]]]; discriminate H.
Defined.

Lemma lookups_agree_on_unique_ids_witness :
  filter_lookup [3; 1; 5]%Z
    [{| id := 1; age := 10 |}; {| id := 3; age := 30 |}] [] =
  object_lookup [3; 1; 5]%Z
    [{| id := 1; age := 10 |}; {| id := 3; age := 30 |}] [].
Proof.
  apply (lookups_agree_on_unique_ids [3; 1; 5]%Z
           [{| id := 1; age := 10 |}; {| id := 3; age := 30 |}] []).
  simpl. constructor.
  - simpl. intros [H|[]]; discriminate H.
  - constructor; [intros []|constructor].
Defined.


Lemma ordered_lookup_pairs_by_position_witness :
  ordered_lookup [1; 2]%Z
    [{| id := 1; age := 10 |}; {| id := 2; age := 20 |}] [] =
  ([] ++ map (fun u => [PNumber (id u); PUser u])
           [{| id := 1; age := 10 |}; {| id := 2; age := 20 |}], None).
Proof.
  apply (ordered_lookup_pairs_by_position [1; 2]%Z
           [{| id := 1; age := 10 |}; {| id := 2; age := 20 |}] []).
  reflexivity.
Defined.

End Post_properties.

(* ------------------------------------------------------------------ *)
(** * More on the scroll-to-top widget *)

Section ScrollTop_more.

Variable cls : string.


Lemma quiet_step_flag (e : event) (w : world) :
  inv w -> mounted w = true -> is_render e || is_click e = true ->
  visible (step cls e w) = visible w /\ mounted (step cls e w) = true.
Proof.
  intros I M Q. destruct e as [| |offset|]; try discriminate Q.
  - destruct (render_listeners cls w I) as (i & _ & _ & _ & _ & _ & H & _).
    unfold visible, mounted in *. rewrite H.
    destruct (hook w); [now split|discriminate].
  - rewrite (click_step cls w I). now destruct (clickable w).
Qed.

(** X2: on a mounted widget only a scroll event changes the flag: rendering
    again does not reset it and clicking the widget does not clear it. *)
Theorem only_scroll_changes_flag
    (evs later : list event) (start : Q) :
  mounted (run cls evs (initial start)) = true ->
  forallb (fun e => is_render e || is_click e) later = true ->
  visible (run cls later (run cls evs (initial start))) =
  visible (run cls evs (initial start)).
Proof.
  pose proof (reachable_inv cls evs start) as I.
  generalize dependent (run cls evs (initial start)).
  induction later as [|e later IH]; intros w I M Q; [reflexivity|].
  simpl in Q. apply andb_true_iff in Q as [Qe Q].
  destruct (quiet_step_flag e w I M Qe) as [V M'].
  simpl. rewrite (IH _ (step_inv cls e w I) M' Q). exact V.
Qed.

(** X4: after the unmount the listeners that were left on the window still
    run on every scroll event, and do nothing: the event changes the scroll
    offset and no other part of the page state. *)
Theorem scroll_after_unmount_changes_nothing
    (evs : list event) (start offset : Q) :
  mounted (run cls evs (initial start)) = false ->
  step cls (EvScroll offset) (run cls evs (initial start)) =
  with_scrollTop offset (run cls evs (initial start)).
Proof.
  intros M. pose proof (reachable_inv cls evs start) as I.
  rewrite (scroll_step cls offset _ (inv_toggle _ I)).
  destruct (run cls evs (initial start)) as [q ls cs h j r n].
  unfold mounted, flag_after in *; simpl in *.
  destruct h; [discriminate|reflexivity].
Qed.

Lemma step_scroll_requests (e : event) (w : world) :
  inv w ->
  scroll_requests (calls (step cls e w)) =
  scroll_requests (calls w)
  ++ (if is_click e && clickable w then [to_top] else []).
Proof.
  intros I. destruct e as [| |offset|]; simpl andb; cbv iota.
  - destruct (render_listeners cls w I) as (i & _ & _ & C & _).
    rewrite C. unfold scroll_requests. now rewrite flat_map_app.
  - simpl. now rewrite app_nil_r.
  - rewrite (scroll_step cls offset w (inv_toggle w I)). simpl.
    now rewrite app_nil_r.
  - rewrite (click_step cls w I). destruct (clickable w); simpl.
    + unfold scroll_requests. now rewrite flat_map_app.
    + now rewrite app_nil_r.
Qed.

Lemma run_scroll_requests (evs : list event) :
  forall w,
    inv w ->
    exists n,
      (n <= List.length (filter is_click evs))%nat /\
      scroll_requests (calls (run cls evs w)) =
      scroll_requests (calls w) ++ repeat to_top n.
Proof.
  induction evs as [|e evs IH]; intros w I.
  - exists 0%nat. simpl. split; [lia|now rewrite app_nil_r].
  - destruct (IH _ (step_inv cls e w I)) as (n & L & E).
    simpl. rewrite E, (step_scroll_requests e w I), <- app_assoc.
    destruct e as [| |offset|]; simpl in *;
      try (exists n; split; [lia|reflexivity]).
    destruct (clickable w); simpl.
    + exists (S n). split; [lia|reflexivity].
    + exists n. split; [lia|reflexivity].
Qed.

(** X5: the widget never scrolls the page anywhere but to the top, and never
    unasked: every scroll request it has made is the smooth scroll to
    offset 0, and there are at most as many requests as clicks. *)
Theorem every_scroll_request_targets_top (evs : list event) (start : Q) :
  Forall (fun o => o = to_top)
    (scroll_requests (calls (run cls evs (initial start)))) /\
  (List.length (scroll_requests (calls (run cls evs (initial start))))
   <= List.length (filter is_click evs))%nat.
Proof.
  destruct (run_scroll_requests evs _ (inv_initial start))
    as (n & L & E).
  rewrite E. simpl. split.
  - apply Forall_forall. intros o H. now apply repeat_spec in H.
  - now rewrite repeat_length.
Qed.

End ScrollTop_more.


Lemma only_scroll_changes_flag_witness :
  visible
    (run "ScrollTop_scrollTop" [EvRender; EvClick; EvRender]
       (run "ScrollTop_scrollTop" [EvRender; EvScroll 450] (initial 0))) =
  visible (run "ScrollTop_scrollTop" [EvRender; EvScroll 450] (initial 0)).
Proof.
  apply (only_scroll_changes_flag "ScrollTop_scrollTop"
           [EvRender; EvScroll 450] [EvRender; EvClick; EvRender] 0);
    reflexivity.
Defined.

Lemma scroll_after_unmount_changes_nothing_witness :
  step "ScrollTop_scrollTop" (EvScroll 450)
    (run "ScrollTop_scrollTop" [EvRender; EvRender; EvUnmount] (initial 0)) =
  with_scrollTop 450
    (run "ScrollTop_scrollTop" [EvRender; EvRender; EvUnmount] (initial 0)).
Proof.
  apply (scroll_after_unmount_changes_nothing "ScrollTop_scrollTop"
           [EvRender; EvRender; EvUnmount] 0 450).
  reflexivity.
Defined.
